(** * Multi-page Markdown viewer: manifest resolution and content loading

    A shallow embedding of [src/multi_page_md_viewer_react.jsx]: the
    module-level [manifest], the two Next.js build hooks [getStaticPaths]
    and [getStaticProps], and the part of the [LearnPage] component that
    computes the navigation neighbours and the background style.

    JavaScript values are modelled as follows.
    - An object literal is a record with the source's field names.
    - An array is a [list]; [Array.prototype.map], [find] and [findIndex]
      are the functions [Array_map], [Array_find] and [Array_findIndex];
      an index is a [Z] because [findIndex] answers [-1] on a miss.
    - [undefined] and [null] are both [None]: the component only ever tests
      such values for truthiness.
    - An [async] function is a computation that ends in a value or in a
      thrown error (a fulfilled or a rejected promise).
    - The module-level array, the file system and the history of reads
      form the [World] that computations are threaded through. *)

From Stdlib Require Import List ZArith Lia Bool String Ascii.
Import ListNotations.

Local Open Scope string_scope.
Local Open Scope Z_scope.

(** ** Data model *)

(** One entry of the [manifest] array: [{ id, title, file, bg }].  A
    descriptor may come without a [bg] property. *)
Record PageDescriptor := mkPage {
  id : string;
  title : string;
  file : string;
  bg : option string
}.

(** [{ params: { id } }], one entry of the [paths] array. *)
Record Params := { params_id : string }.
Record PathEntry := { params : Params }.

(** The value returned by [getStaticPaths]. *)
Record StaticPaths := { paths : list PathEntry; fallback : bool }.

(** The value returned by [getStaticProps]: [{ props: { page, content } }]. *)
Record Props := { page : PageDescriptor; content : string }.
Record StaticProps := { props : Props }.

(** The object returned by gray-matter's [matter]; only [content] is used. *)
Record GrayMatterFile := { data : string; gm_content : string }.

(** Error codes of Node's file-system errors. *)
Inductive Errno := ENOENT | EACCES | EISDIR | EMFILE | EIO.

(** The errors a computation may throw: the [TypeError] of a property read
    on [undefined], the system error of a failed [fs] call (with its code
    and path), and whatever an imported library throws. *)
Inductive JsError :=
| TypeError (message : string)
| SystemError (code : Errno) (path : string)
| LibraryError (name message : string).

Inductive Outcome (A : Type) :=
| Ok (value : A)
| Throw (error : JsError).
Arguments Ok {A} value.
Arguments Throw {A} error.

(** What a read of one path does in a given file system. *)
Inductive ReadOutcome :=
| Contents (text : string)
| Fails (code : Errno).

(** The state computations run in: the module-level [manifest] array (a
    mutable JavaScript object), the working directory of the process, the
    file system, and the paths handed to [fs.readFileSync] so far. *)
Record World := mkWorld {
  manifest : list PageDescriptor;
  cwd : string;
  files : string -> ReadOutcome;
  reads : list string
}.

(** ** State and error monad *)

Definition M (A : Type) : Type := World -> Outcome A * World.

Definition ret {A} (a : A) : M A := fun w => (Ok a, w).

Definition throw {A} (e : JsError) : M A := fun w => (Throw e, w).

Definition bind {A B} (c : M A) (k : A -> M B) : M B :=
  fun w =>
    match c w with
    | (Ok a, w') => k a w'
    | (Throw e, w') => (Throw e, w')
    end.

Notation "x <- c ;; k" := (bind c (fun x => k))
  (at level 61, c at next level, right associativity).

Definition lift {A} (o : Outcome A) : M A := fun w => (o, w).

Definition get_manifest : M (list PageDescriptor) := fun w => (Ok (manifest w), w).

Definition get_cwd : M string := fun w => (Ok (cwd w), w).

(** ** JavaScript built-ins used by the module *)

Definition Array_map {A B} (f : A -> B) (xs : list A) : list B := List.map f xs.

(** [xs.find(p)]: the first element satisfying [p], else [undefined]. *)
Fixpoint Array_find {A} (p : A -> bool) (xs : list A) : option A :=
  match xs with
  | [] => None
  | x :: rest => if p x then Some x else Array_find p rest
  end.

(** [xs.findIndex(p)]: the index of the first element satisfying [p],
    else [-1]. *)
Fixpoint findIndex_from {A} (p : A -> bool) (xs : list A) (k : Z) : Z :=
  match xs with
  | [] => -1
  | x :: rest => if p x then k else findIndex_from p rest (k + 1)
  end.

Definition Array_findIndex {A} (p : A -> bool) (xs : list A) : Z :=
  findIndex_from p xs 0.

Definition Array_length {A} (xs : list A) : Z := Z.of_nat (List.length xs).

(** [xs[i]]: [undefined] outside the array. *)
Definition Array_get {A} (xs : list A) (i : Z) : option A :=
  if i <? 0 then None else nth_error xs (Z.to_nat i).

(** [fs.readFileSync(p, 'utf8')]: one read of the file system, recorded in
    the history whether it succeeds or throws. *)
Definition readFileSync (p : string) : M string :=
  fun w =>
    let w' := mkWorld (manifest w) (cwd w) (files w) (reads w ++ [p]) in
    match files w p with
    | Contents s => (Ok s, w')
    | Fails e => (Throw (SystemError e p), w')
    end.

(** JavaScript truthiness of an optional string property. *)
Definition truthy (s : option string) : bool :=
  match s with
  | Some v => negb (v =? "")%string
  | None => false
  end.

(** An optional string inside a template literal: [`${v}`]. *)
Definition template (s : option string) : string :=
  match s with
  | Some v => v
  | None => "undefined"
  end.

(** [React.useState(init)]: the cell of a component instance is empty on
    the first render and is then filled with [init]; later renders answer
    the stored value and ignore [init]. *)
Definition HookCell := option Z.

Definition useState (init : Z) (cell : HookCell) : Z * HookCell :=
  match cell with
  | None => (init, Some init)
  | Some v => (v, Some v)
  end.

(** ** The module *)

(** The [manifest] literal of the source. *)
Definition source_manifest : list PageDescriptor :=
  [ mkPage "network" "计算机网络" "network.md" (Some "/images/network.jpg");
    mkPage "os" "操作系统" "os.md" (Some "/images/os.jpg");
    mkPage "crypto" "密码学" "crypto.md" (Some "/images/crypto.jpg") ].

(** The world right after the module is loaded in directory [dir] over the
    file system [fsys]. *)
Definition module_loaded (dir : string) (fsys : string -> ReadOutcome) : World :=
  mkWorld source_manifest dir fsys [].

(** A CSS style object, as its list of properties. *)
Definition Style := list (string * string).

(** What a render of [LearnPage] computes before it builds the markup. *)
Record Rendered := {
  backgroundStyle : Style;
  prev : option PageDescriptor;
  next : option PageDescriptor;
  index : Z
}.

Section Viewer.

(** Node's [path.join] and gray-matter's [matter] are imported, not
    defined by the module. *)
Variable path_join : list string -> string.
Variable matter : string -> Outcome GrayMatterFile.

(** [const contentDir = path.join(process.cwd(), 'public', 'content')]. *)
Definition contentDir : M string :=
  dir <- get_cwd ;;
  ret (path_join [dir; "public"; "content"]).

(** [getStaticPaths]. *)
Definition getStaticPaths : M StaticPaths :=
  manifest <- get_manifest ;;
  let paths := Array_map (fun m => {| params := {| params_id := id m |} |}) manifest in
  ret {| paths := paths; fallback := false |}.

(** [getStaticProps({ params })].  When [find] answers [undefined] the
    property read [page.file] throws before anything else happens. *)
Definition getStaticProps (params : Params) : M StaticProps :=
  manifest <- get_manifest ;;
  match Array_find (fun m => (id m =? params_id params)%string) manifest with
  | None => throw (TypeError "Cannot read properties of undefined (reading 'file')")
  | Some page =>
      dir <- contentDir ;;
      let fullPath := path_join [dir; file page] in
      fileContents <- readFileSync fullPath ;;
      parsed <- lift (matter fileContents) ;;
      ret {| props := {| page := page; content := gm_content parsed |} |}
  end.

(** The head of [LearnPage({ page, content })], up to [backgroundStyle];
    [cell] is the state cell of the component instance being rendered. *)
Definition LearnPage (p : Props) (cell : HookCell) : M (Rendered * HookCell) :=
  manifest <- get_manifest ;;
  let '(index, cell') :=
    useState (Array_findIndex (fun m => (id m =? id (page p))%string) manifest) cell in
  let next :=
    if index <? Array_length manifest - 1 then Array_get manifest (index + 1) else None in
  let prev :=
    if index >? 0 then Array_get manifest (index - 1) else None in
  let backgroundStyle :=
    if truthy (bg (page p))
    then [ ("backgroundImage", "url(" ++ template (bg (page p)) ++ ")");
           ("backgroundSize", "cover");
           ("backgroundPosition", "center") ]
    else [ ("background", "linear-gradient(135deg, #0f172a, #021124)") ] in
  ret ({| backgroundStyle := backgroundStyle; prev := prev; next := next; index := index |},
       cell').

End Viewer.

(** ** Parts supplied by the platform *)

(** [path.join] on plain segments (no empty, [.] or [..] segment and no
    separator inside a segment), where it only inserts the separator. *)
Definition join_plain (segments : list string) : string := String.concat "/" segments.

(** [p] stripped from the front of [s], when [s] begins with [p]. *)
Fixpoint strip_prefix (p s : string) : option string :=
  match p, s with
  | EmptyString, _ => Some s
  | String a p', String b s' => if Ascii.eqb a b then strip_prefix p' s' else None
  | String _ _, EmptyString => None
  end.

(** [s] cut at the first occurrence of [sep]: the text before it and the
    text after it. *)
Fixpoint split_first (sep s : string) : option (string * string) :=
  match strip_prefix sep s with
  | Some rest => Some (EmptyString, rest)
  | None =>
      match s with
      | EmptyString => None
      | String c s' =>
          match split_first sep s' with
          | Some (before, after) => Some (String c before, after)
          | None => None
          end
      end
  end.

(** Modelled from the spec: gray-matter's [matter] is an imported package
    whose code is not part of the module.  The design document says that a
    content file is "optionally prefixed by a delimited metadata block" and
    that the loader "parses out a metadata block (if the file begins with a
    delimited metadata section) and returns the remaining body text
    unchanged".  [metadata_block opening closing str] is that block, when
    [str] begins with the opening delimiter and the closing one follows:
    the metadata between the two delimiters and the body after them. *)
Definition metadata_block (opening closing str : string) : option (string * string) :=
  match strip_prefix opening str with
  | Some rest => split_first closing rest
  | None => None
  end.

(** Modelled from the spec: [matter], see [metadata_block]. *)
Definition spec_matter (opening closing str : string) : Outcome GrayMatterFile :=
  match metadata_block opening closing str with
  | Some (meta, body) => Ok {| data := meta; gm_content := body |}
  | None => Ok {| data := ""; gm_content := str |}
  end.

Section Build.

Variable path_join : list string -> string.
Variable matter : string -> Outcome GrayMatterFile.

(** Modelled from the spec: the static build is run by the framework,
    whose code is not part of the module.  The design document says: "at
    build time, the Resolver enumerates all page identifiers (one static
    page per manifest entry).  For each identifier, the Loader reads and
    parses the corresponding source file", and "static build either
    succeeds or fails entirely". *)
Fixpoint generate (entries : list PathEntry) : M (list StaticProps) :=
  match entries with
  | [] => ret []
  | entry :: rest =>
      first <- getStaticProps path_join matter (params entry) ;;
      others <- generate rest ;;
      ret (first :: others)
  end.

(** Modelled from the spec: see [generate]. *)
Definition build : M (list StaticProps) :=
  sp <- getStaticPaths ;;
  generate (paths sp).

End Build.

(** ** Sample worlds *)

(** A file system with the three content files of the deployment notes,
    under [/site/public/content]; [crypto.md] cannot be read. *)
Definition sample_files (p : string) : ReadOutcome :=
  if (p =? "/site/public/content/network.md")%string
  then Contents ("---" ++ String (ascii_of_nat 10) "title: network"
                 ++ String (ascii_of_nat 10) "---" ++ String (ascii_of_nat 10) "# TCP")
  else if (p =? "/site/public/content/os.md")%string
  then Contents "# Processes"
  else if (p =? "/site/public/content/crypto.md")%string
  then Fails EACCES
  else Fails ENOENT.

Definition sample_world : World := module_loaded "/site" sample_files.

(** The same file system after [os.md] has been rewritten. *)
Definition edited_files (p : string) : ReadOutcome :=
  if (p =? "/site/public/content/os.md")%string
  then Contents "# Threads"
  else sample_files p.

(** A manifest that breaks the uniqueness of [id]: two entries are called
    [os]. *)
Definition duplicate_manifest : list PageDescriptor :=
  [ mkPage "network" "Networks" "network.md" None;
    mkPage "os" "Systems" "os.md" None;
    mkPage "os" "Systems again" "os2.md" None ].

Definition duplicate_world : World := mkWorld duplicate_manifest "/site" sample_files [].

(** The delimiters of the usual front matter: three dashes open the block,
    a line break and three dashes close it. *)
Definition dashes : string := "---".

Definition closing_dashes : string := String (ascii_of_nat 10) "---".

(** The failure classes the design document names. *)
Inductive FailureClass := NotFoundError | FileNotFoundError | ReadError.

(** The class a thrown error falls under.  A failed file read is a
    [FileNotFoundError] when Node reports [ENOENT] (no such file or
    directory) and a [ReadError] for every other code; a [TypeError] or a
    library error is in none of the classes. *)
Definition failure_class (e : JsError) : option FailureClass :=
  match e with
  | SystemError ENOENT _ => Some FileNotFoundError
  | SystemError _ _ => Some ReadError
  | TypeError _ => None
  | LibraryError _ _ => None
  end.

(** The predicate of the two lookups: [(m) => m.id === ident]. *)
Definition has_id (ident : string) : PageDescriptor -> bool :=
  fun m => (id m =? ident)%string.

(** The path [getStaticProps] reads for a descriptor:
    [path.join(contentDir, page.file)]. *)
Definition content_path (path_join : list string -> string) (w : World)
  (d : PageDescriptor) : string :=
  path_join [path_join [cwd w; "public"; "content"]; file d].

(** The world after one more read, of path [p]. *)
Definition after_read (w : World) (p : string) : World :=
  mkWorld (manifest w) (cwd w) (files w) (reads w ++ [p]).

(** The message of the [TypeError] thrown by [page.file] on [undefined]. *)
Definition undefined_file : string :=
  "Cannot read properties of undefined (reading 'file')".

(** The ids listed by a [getStaticPaths] result. *)
Definition listed_ids (sp : StaticPaths) : list string :=
  map (fun entry => params_id (params entry)) (paths sp).

(** The style used when [page.bg] is falsy. *)
Definition default_style : Style :=
  [ ("background", "linear-gradient(135deg, #0f172a, #021124)") ].

(** Two worlds that differ at most in the history of reads. *)
Definition same_site (w1 w2 : World) : Prop :=
  manifest w1 = manifest w2 /\ cwd w1 = cwd w2 /\ files w1 = files w2.

(** The world [w] after the file system has become [fsys]. *)
Definition with_files (w : World) (fsys : string -> ReadOutcome) : World :=
  mkWorld (manifest w) (cwd w) fsys (reads w).

(** ** Markup of the page *)

(** An [<a>] element: its [href], its [className] and its text. *)
Record Anchor := { href : string; className : string; label : string }.

(** One [<li key={m.id}>] of the table of contents, with its link. *)
Record TocItem := { key : string; link : Anchor }.

(** A child of a JSX element: a piece of text or a number. *)
Inductive Child :=
| Text (s : string)
| Number (n : Z).

(** The parts of the element [LearnPage] returns that are computed from the
    page and the manifest: the [style] of the outer [<div>], the two links
    of the header, the items of the table of contents, the [key] of the
    animated block, the children of [ReactMarkdown] and the children of the
    footer's counter.  The [width] of the progress bar is a floating-point
    quotient and is left out. *)
Record Markup := {
  style : Style;
  header_prev : option Anchor;
  header_next : option Anchor;
  toc : list TocItem;
  motion_key : string;
  markdown : string;
  footer_counter : list Child
}.

(** The class the links of the header share. *)
Definition header_class : string :=
  "px-3 py-1 rounded bg-white/10 text-white hover:bg-white/20".

(** [prev && (<a href={`/${prev.id}`} ...>← {prev.title}</a>)]. *)
Definition prev_link (prev : option PageDescriptor) : option Anchor :=
  match prev with
  | Some prev =>
      Some {| href := "/" ++ id prev; className := header_class;
              label := "← " ++ title prev |}
  | None => None
  end.

(** [next && (<a href={`/${next.id}`} ...>{next.title} →</a>)]. *)
Definition next_link (next : option PageDescriptor) : option Anchor :=
  match next with
  | Some next =>
      Some {| href := "/" ++ id next; className := header_class;
              label := title next ++ " →" |}
  | None => None
  end.

(** The body of [manifest.map((m) => <li key={m.id}>...</li>)]. *)
Definition toc_item (page : PageDescriptor) (m : PageDescriptor) : TocItem :=
  {| key := id m;
     link := {| href := "/" ++ id m;
                className := "block px-2 py-1 rounded "
                             ++ (if (id m =? id page)%string
                                 then "bg-white/10" else "hover:bg-white/5");
                label := title m |} |}.

(** The [return] of [LearnPage]: the markup built from what the head of the
    component computed. *)
Definition LearnPage_return (p : Props) (cell : HookCell) : M (Markup * HookCell) :=
  rendered <- LearnPage p cell ;;
  manifest <- get_manifest ;;
  let '(r, cell') := rendered in
  ret ({| style := backgroundStyle r;
          header_prev := prev_link (prev r);
          header_next := next_link (next r);
          toc := Array_map (toc_item (page p)) manifest;
          motion_key := id (page p);
          markdown := content p;
          footer_counter :=
            [ Text "当前页："; Text (title (page p)); Text " （";
              Number (index r + 1); Text "/"; Number (Array_length manifest);
              Text "）" ] |},
       cell').

(** Every [href] the component builds itself: the links of the header and
    of the table of contents.  Anchors inside the document are produced by
    [ReactMarkdown] from [markdown] and are not among them. *)
Definition markup_hrefs (mk : Markup) : list string :=
  (match header_prev mk with Some a => [href a] | None => [] end
   ++ match header_next mk with Some a => [href a] | None => [] end
   ++ map (fun item => href (link item)) (toc mk))%list.

(** The class of the entry of the table of contents that is the current
    page. *)
Definition active_class : string := "block px-2 py-1 rounded bg-white/10".

(** A value of a property of a props object: a string, or any other value. *)
Inductive PropValue :=
| PString (s : string)
| POther (tag : nat).

(** An object as its properties in insertion order. *)
Definition JsObject := list (string * PropValue).

(** [o.k]. *)
Fixpoint obj_get (k : string) (o : JsObject) : option PropValue :=
  match o with
  | [] => None
  | (k', v) :: rest => if (k' =? k)%string then Some v else obj_get k rest
  end.

(** [o.k = v]: an existing property keeps its place, a new one goes last. *)
Fixpoint obj_set (k : string) (v : PropValue) (o : JsObject) : JsObject :=
  match o with
  | [] => [(k, v)]
  | (k', v') :: rest =>
      if (k' =? k)%string then (k, v) :: rest else (k', v') :: obj_set k v rest
  end.

(** The [img] component handed to [ReactMarkdown]: the props of the
    [<img>] element, [{...props, loading: "lazy", className: "..."}]. *)
Definition img (props : JsObject) : JsObject :=
  obj_set "className" (PString "rounded shadow-md mx-auto my-4")
    (obj_set "loading" (PString "lazy") props).

(** * Properties *)

(** ** Array lookups *)

Section ArrayLemmas.

Context {A : Type} (p : A -> bool).

Lemma Array_find_some (xs : list A) (x : A) :
  Array_find p xs = Some x -> In x xs /\ p x = true.
Proof.
  induction xs as [|y rest IH]; simpl; [discriminate|].
  destruct (p y) eqn:Hy.
  - intros [= ->]. auto.
  - intros H. destruct (IH H) as [Hin Hp]. auto.
Qed.

Lemma lookup_miss (xs : list A) (k : Z) :
  (forall x, In x xs -> p x = false) ->
  Array_find p xs = None /\ findIndex_from p xs k = -1.
Proof.
  revert k. induction xs as [|y rest IH]; simpl; intros k Hall; [auto|].
  rewrite (Hall y (or_introl eq_refl)).
  apply IH. intros x Hx. apply Hall. now right.
Qed.

Lemma lookup_first (xs : list A) (i : nat) (x : A) (k : Z) :
  nth_error xs i = Some x ->
  p x = true ->
  (forall j y, (j < i)%nat -> nth_error xs j = Some y -> p y = false) ->
  Array_find p xs = Some x /\ findIndex_from p xs k = k + Z.of_nat i.
Proof.
  revert i k. induction xs as [|y rest IH]; intros i k Hnth Hp Hbefore.
  - destruct i; discriminate.
  - destruct i as [|i]; simpl in *.
    + injection Hnth as ->. rewrite Hp. split; [reflexivity | lia].
    + rewrite (Hbefore 0%nat y) by (simpl; auto; lia).
      destruct (IH i (k + 1) Hnth Hp) as [Hf Hi].
      * intros j z Hj Hz. apply (Hbefore (S j) z); [lia | exact Hz].
      * split; [exact Hf | rewrite Hi; lia].
Qed.

Lemma Array_find_none_iff (xs : list A) :
  Array_find p xs = None <-> (forall x, In x xs -> p x = false).
Proof.
  split.
  - induction xs as [|y rest IH]; simpl; intros H x Hx; [contradiction|].
    destruct (p y) eqn:Hy; [discriminate|].
    destruct Hx as [<- | Hx]; auto.
  - intros H. apply (lookup_miss xs 0 H).
Qed.

(** What [find] answers sits at some least position of the array. *)
Lemma Array_find_position (xs : list A) (x : A) :
  Array_find p xs = Some x ->
  exists i, nth_error xs i = Some x /\
            forall j y, (j < i)%nat -> nth_error xs j = Some y -> p y = false.
Proof.
  induction xs as [|y rest IH]; simpl; [discriminate|].
  destruct (p y) eqn:Hy.
  - intros [= ->]. exists 0%nat. split; [reflexivity | intros; lia].
  - intros H. destruct (IH H) as (i & Hi & Hlt).
    exists (S i). split; [exact Hi|].
    intros [|j] z Hj Hz; simpl in Hz.
    + now injection Hz as <-.
    + apply (Hlt j z); [lia | exact Hz].
Qed.

End ArrayLemmas.

Lemma Array_get_nat {A} (xs : list A) (i : nat) :
  Array_get xs (Z.of_nat i) = nth_error xs i.
Proof.
  unfold Array_get.
  destruct (Z.ltb_spec (Z.of_nat i) 0); [lia|].
  now rewrite Nat2Z.id.
Qed.

(** Under the uniqueness invariant every descriptor is the first one with
    its [id]. *)
Lemma unique_id_first (m : list PageDescriptor) (i : nat) (d : PageDescriptor) :
  NoDup (map id m) ->
  nth_error m i = Some d ->
  forall j y, (j < i)%nat -> nth_error m j = Some y -> has_id (id d) y = false.
Proof.
  intros Hnd Hi j y Hj Hy. unfold has_id.
  apply String.eqb_neq. intros Heq.
  assert (Hlen : (i < List.length (map id m))%nat).
  { rewrite length_map. apply nth_error_Some. congruence. }
  assert (j = i); [|lia].
  apply (proj1 (NoDup_nth_error (map id m)) Hnd j i); [lia|].
  rewrite !nth_error_map, Hi, Hy. simpl. now rewrite Heq.
Qed.

Lemma has_id_self (d : PageDescriptor) : has_id (id d) d = true.
Proof. unfold has_id. apply String.eqb_refl. Qed.

Lemma has_id_absent (m : list PageDescriptor) (ident : string) :
  ~ In ident (map id m) -> forall x, In x m -> has_id ident x = false.
Proof.
  intros Hout x Hx. unfold has_id. apply String.eqb_neq.
  intros Heq. apply Hout. rewrite <- Heq. now apply in_map.
Qed.

(** ** Navigation neighbours *)

(** The two conditional expressions of [LearnPage] at a position [i] of the
    array. *)
Lemma next_entry {A} (m : list A) (i : nat) :
  (i < List.length m)%nat ->
  (if Z.of_nat i <? Array_length m - 1 then Array_get m (Z.of_nat i + 1) else None)
  = nth_error m (S i).
Proof.
  intros Hi. unfold Array_length.
  destruct (Z.ltb_spec (Z.of_nat i) (Z.of_nat (List.length m) - 1)) as [Hlt | Hge].
  - replace (Z.of_nat i + 1) with (Z.of_nat (S i)) by lia. apply Array_get_nat.
  - symmetry. apply nth_error_None. lia.
Qed.

Lemma prev_entry {A} (m : list A) (i : nat) :
  (if Z.of_nat i >? 0 then Array_get m (Z.of_nat i - 1) else None)
  = match i with O => None | S j => nth_error m j end.
Proof.
  destruct i as [|j]; [reflexivity|].
  replace (Z.of_nat (S j) >? 0) with true by (symmetry; apply Z.gtb_lt; lia).
  replace (Z.of_nat (S j) - 1) with (Z.of_nat j) by lia. apply Array_get_nat.
Qed.

(** The first render of an instance, spelled out. *)
Lemma LearnPage_mount (p : Props) (w : World) :
  let i := Array_findIndex (has_id (id (page p))) (manifest w) in
  exists r,
    LearnPage p None w = (Ok (r, Some i), w) /\
    index r = i /\
    next r = (if i <? Array_length (manifest w) - 1
              then Array_get (manifest w) (i + 1) else None) /\
    prev r = (if i >? 0 then Array_get (manifest w) (i - 1) else None).
Proof.
  simpl. eexists. split; [reflexivity|]. simpl. auto.
Qed.

(** A later render of the same instance answers from the stored index,
    whatever page it is given. *)
Lemma LearnPage_rerender (p : Props) (stored : Z) (w : World) :
  exists r,
    LearnPage p (Some stored) w = (Ok (r, Some stored), w) /\
    index r = stored.
Proof.
  eexists. split; reflexivity.
Qed.

(** C1. On the first render of a page whose descriptor sits at position [i]
    of a manifest with unique ids, the index is [i], [prev] is the entry at
    [i - 1] and [next] the entry at [i + 1]; [prev] is absent exactly at the
    first position and [next] exactly at the last one, so nothing wraps
    around. *)
Theorem neighbors_by_position (w : World) (i : nat) (d : PageDescriptor) (body : string) :
  NoDup (map id (manifest w)) ->
  nth_error (manifest w) i = Some d ->
  exists r,
    LearnPage {| page := d; content := body |} None w = (Ok (r, Some (Z.of_nat i)), w) /\
    index r = Z.of_nat i /\
    prev r = match i with O => None | S j => nth_error (manifest w) j end /\
    next r = nth_error (manifest w) (S i) /\
    (prev r = None <-> i = 0%nat) /\
    (next r = None <-> S i = List.length (manifest w)).
Proof.
  intros Hnd Hi.
  assert (Hlen : (i < List.length (manifest w))%nat)
    by (apply nth_error_Some; congruence).
  destruct (LearnPage_mount {| page := d; content := body |} w)
    as (r & Hrun & Hidx & Hnext & Hprev).
  simpl in *.
  assert (Hfound : Array_findIndex (has_id (id d)) (manifest w) = Z.of_nat i).
  { unfold Array_findIndex.
    destruct (lookup_first (has_id (id d)) (manifest w) i d 0 Hi (has_id_self d)
                (unique_id_first _ _ _ Hnd Hi)) as [_ ->]. lia. }
  rewrite Hfound in *.
  rewrite next_entry in Hnext by exact Hlen.
  rewrite prev_entry in Hprev.
  exists r. repeat split; auto.
  - rewrite Hprev. destruct i as [|j]; [reflexivity|].
    intros Hnone. apply nth_error_None in Hnone. lia.
  - intros ->. now rewrite Hprev.
  - rewrite Hnext. intros Hnone. apply nth_error_None in Hnone. lia.
  - rewrite Hnext. intros Hlast. apply nth_error_None. lia.
Qed.

Lemma neighbors_by_position_witness :
  exists r,
    LearnPage {| page := mkPage "os" "操作系统" "os.md" (Some "/images/os.jpg");
                 content := "# Processes" |} None sample_world
    = (Ok (r, Some 1), sample_world) /\
    option_map id (prev r) = Some "network" /\
    option_map id (next r) = Some "crypto".
Proof.
  destruct (neighbors_by_position sample_world 1
              (mkPage "os" "操作系统" "os.md" (Some "/images/os.jpg")) "# Processes")
    as (r & Hrun & _ & Hprev & Hnext & _).
  - repeat constructor; simpl; intuition discriminate.
  - reflexivity.
  - exists r. rewrite Hprev, Hnext. split; [exact Hrun | split; reflexivity].
Defined.

(** C9. On the first render of a page whose id is not in the manifest the
    lookup answers [-1]: [prev] is absent and [next] is the first entry of
    the manifest, so with a non-empty manifest the two are not both
    absent. *)
Theorem neighbors_of_unknown_id (w : World) (p : Props) :
  ~ In (id (page p)) (map id (manifest w)) ->
  exists r,
    LearnPage p None w = (Ok (r, Some (-1)), w) /\
    index r = -1 /\
    prev r = None /\
    next r = hd_error (manifest w) /\
    (manifest w <> [] -> next r <> None).
Proof.
  intros Hout.
  destruct (LearnPage_mount p w) as (r & Hrun & Hidx & Hnext & Hprev).
  simpl in *.
  assert (Hmiss : Array_findIndex (has_id (id (page p))) (manifest w) = -1).
  { unfold Array_findIndex. apply lookup_miss. now apply has_id_absent. }
  rewrite Hmiss in *.
  assert (Hhd : next r = hd_error (manifest w)).
  { rewrite Hnext. unfold Array_length.
    destruct (manifest w) as [|d rest]; reflexivity || (simpl List.length).
    destruct (Z.ltb_spec (-1) (Z.of_nat (S (List.length rest)) - 1)); [reflexivity | lia]. }
  exists r. repeat split; auto.
  rewrite Hhd. destruct (manifest w); [congruence | discriminate].
Qed.

Lemma neighbors_of_unknown_id_witness :
  exists r,
    LearnPage {| page := mkPage "unknown" "?" "unknown.md" None; content := "" |}
      None sample_world = (Ok (r, Some (-1)), sample_world) /\
    prev r = None /\
    option_map id (next r) = Some "network".
Proof.
  destruct (neighbors_of_unknown_id sample_world
              {| page := mkPage "unknown" "?" "unknown.md" None; content := "" |})
    as (r & Hrun & _ & Hprev & Hnext & _).
  - simpl. intuition discriminate.
  - exists r. rewrite Hnext. split; [exact Hrun | split; [exact Hprev | reflexivity]].
Defined.

(** ** Background style *)

(** C8. A page without a [bg] property renders, in any instance state,
    without an error and without touching the world, and its background is
    the fixed default gradient. *)
Theorem missing_background_default (w : World) (p : Props) (cell : HookCell) :
  bg (page p) = None ->
  exists r cell',
    LearnPage p cell w = (Ok (r, cell'), w) /\
    backgroundStyle r = default_style.
Proof.
  intros Hbg. unfold LearnPage, bind, get_manifest, ret.
  destruct (useState _ cell) as [i c]. rewrite Hbg. simpl.
  do 2 eexists. split; reflexivity.
Qed.

Lemma missing_background_default_witness :
  exists r cell',
    LearnPage {| page := mkPage "os" "Systems" "os.md" None; content := "" |}
      None duplicate_world = (Ok (r, cell'), duplicate_world) /\
    backgroundStyle r = [ ("background", "linear-gradient(135deg, #0f172a, #021124)") ].
Proof.
  apply (missing_background_default duplicate_world
           {| page := mkPage "os" "Systems" "os.md" None; content := "" |} None).
  reflexivity.
Defined.

(** A non-empty [bg] is used as the background image. *)
Lemma present_background_used (w : World) (p : Props) (cell : HookCell) (url : string) :
  bg (page p) = Some url ->
  url <> "" ->
  exists r cell',
    LearnPage p cell w = (Ok (r, cell'), w) /\
    backgroundStyle r = [ ("backgroundImage", "url(" ++ url ++ ")");
                          ("backgroundSize", "cover");
                          ("backgroundPosition", "center") ].
Proof.
  intros Hbg Hurl. unfold LearnPage, bind, get_manifest, ret.
  destruct (useState _ cell) as [i c]. rewrite Hbg. simpl.
  apply String.eqb_neq in Hurl. rewrite Hurl. simpl.
  do 2 eexists. split; reflexivity.
Qed.

(** ** Static paths *)

(** C3. [getStaticPaths] lists one id per manifest entry, in manifest
    order: an id is listed exactly when some descriptor carries it, and
    under the uniqueness invariant of the manifest no id is listed twice. *)
Theorem listed_ids_are_manifest_ids (w : World) :
  NoDup (map id (manifest w)) ->
  exists sp,
    getStaticPaths w = (Ok sp, w) /\
    fallback sp = false /\
    List.length (paths sp) = List.length (manifest w) /\
    listed_ids sp = map id (manifest w) /\
    (forall ident, In ident (listed_ids sp) <->
                   exists d, In d (manifest w) /\ id d = ident) /\
    NoDup (listed_ids sp).
Proof.
  intros Hnd. eexists. split; [reflexivity|].
  assert (Hids : listed_ids
            {| paths := Array_map (fun m => {| params := {| params_id := id m |} |})
                          (manifest w);
               fallback := false |} = map id (manifest w)).
  { unfold listed_ids, Array_map. simpl. rewrite map_map. reflexivity. }
  rewrite Hids. simpl.
  repeat split; auto.
  - unfold Array_map. apply length_map.
  - intros Hin. apply in_map_iff in Hin. destruct Hin as (d & Hd & Hin). eauto.
  - intros (d & Hin & <-). now apply in_map.
Qed.

Lemma listed_ids_are_manifest_ids_witness :
  exists sp,
    getStaticPaths sample_world = (Ok sp, sample_world) /\
    listed_ids sp = ["network"; "os"; "crypto"] /\
    NoDup (listed_ids sp).
Proof.
  destruct (listed_ids_are_manifest_ids sample_world)
    as (sp & Hrun & _ & _ & Hids & _ & Hnd).
  - repeat constructor; simpl; intuition discriminate.
  - exists sp. split; [exact Hrun | split; [exact Hids | exact Hnd]].
Defined.

(** ** Resolution and loading *)

(** [getStaticProps], spelled out by cases. *)
Lemma getStaticProps_run (path_join : list string -> string)
  (matter : string -> Outcome GrayMatterFile) (prm : Params) (w : World) :
  getStaticProps path_join matter prm w =
  match Array_find (has_id (params_id prm)) (manifest w) with
  | None => (Throw (TypeError undefined_file), w)
  | Some d =>
      let p := content_path path_join w d in
      match files w p with
      | Fails e => (Throw (SystemError e p), after_read w p)
      | Contents s =>
          match matter s with
          | Ok g => (Ok {| props := {| page := d; content := gm_content g |} |},
                     after_read w p)
          | Throw e => (Throw e, after_read w p)
          end
      end
  end.
Proof.
  unfold getStaticProps, bind, get_manifest, has_id.
  destruct (Array_find _ (manifest w)) as [d|]; [|reflexivity].
  unfold contentDir, bind, get_cwd, ret, readFileSync, lift, content_path, after_read.
  simpl. destruct (files w _) as [s|e]; [|reflexivity].
  destruct (matter s); reflexivity.
Qed.

(** An id carried by some descriptor is found, at the least position that
    carries it. *)
Lemma resolve_found (m : list PageDescriptor) (ident : string) :
  In ident (map id m) ->
  exists i d,
    Array_find (has_id ident) m = Some d /\
    nth_error m i = Some d /\
    id d = ident /\
    (forall j y, nth_error m j = Some y -> id y = ident -> (i <= j)%nat).
Proof.
  intros Hin.
  destruct (Array_find (has_id ident) m) as [d|] eqn:Hfind.
  - destruct (Array_find_position _ _ _ Hfind) as (i & Hi & Hleast).
    destruct (Array_find_some _ _ _ Hfind) as [_ Hid].
    apply String.eqb_eq in Hid.
    exists i, d. repeat split; auto.
    intros j y Hj Hy.
    destruct (Nat.le_gt_cases i j) as [Hle | Hlt]; [exact Hle|].
    specialize (Hleast j y Hlt Hj). unfold has_id in Hleast.
    apply String.eqb_neq in Hleast. contradiction.
  - apply in_map_iff in Hin. destruct Hin as (d & Hid & Hd).
    pose proof (proj1 (Array_find_none_iff _ _) Hfind d Hd) as Hno.
    unfold has_id in Hno. apply String.eqb_neq in Hno. contradiction.
Qed.

(** Once [find] has answered [d], [getStaticProps] reads the file of [d],
    once, and any props it returns carry [d]. *)
Lemma getStaticProps_resolved (path_join : list string -> string)
  (matter : string -> Outcome GrayMatterFile) (w : World) (ident : string)
  (d : PageDescriptor) :
  Array_find (has_id ident) (manifest w) = Some d ->
  snd (getStaticProps path_join matter {| params_id := ident |} w)
    = after_read w (content_path path_join w d) /\
  (forall sp, fst (getStaticProps path_join matter {| params_id := ident |} w) = Ok sp ->
              page (props sp) = d).
Proof.
  intros Hfind. rewrite getStaticProps_run. simpl. rewrite Hfind. simpl.
  destruct (files w _) as [s|e]; [destruct (matter s) as [g|e]|]; simpl;
    (split; [reflexivity|]); intros sp Hsp; try discriminate.
  injection Hsp as <-. reflexivity.
Qed.

(** C2, as the code has it.  For an id carried by some descriptor the
    lookup answers a descriptor of the manifest with that id, looking up the
    id of the answer gives the same answer again, and [getStaticProps] goes
    on to read that descriptor's file.  For any other id the lookup answers
    [undefined] and [getStaticProps] throws the [TypeError] of the property
    read [page.file], before anything is read and leaving the world as it
    was. *)
Theorem resolve_on_manifest_ids (path_join : list string -> string)
  (matter : string -> Outcome GrayMatterFile) (w : World) (ident : string) :
  (In ident (map id (manifest w)) ->
   exists d,
     Array_find (has_id ident) (manifest w) = Some d /\
     In d (manifest w) /\
     id d = ident /\
     Array_find (has_id (id d)) (manifest w) = Some d /\
     snd (getStaticProps path_join matter {| params_id := ident |} w)
       = after_read w (content_path path_join w d) /\
     (forall sp, fst (getStaticProps path_join matter {| params_id := ident |} w) = Ok sp ->
                 page (props sp) = d)) /\
  (~ In ident (map id (manifest w)) ->
   Array_find (has_id ident) (manifest w) = None /\
   getStaticProps path_join matter {| params_id := ident |} w
     = (Throw (TypeError undefined_file), w)).
Proof.
  split.
  - intros Hin.
    destruct (resolve_found _ _ Hin) as (i & d & Hfind & Hi & Hid & _).
    destruct (getStaticProps_resolved path_join matter w ident d Hfind) as [Hw Hpage].
    exists d. repeat split; auto.
    + eapply nth_error_In; eauto.
    + now rewrite Hid.
  - intros Hout.
    assert (Hnone : Array_find (has_id ident) (manifest w) = None).
    { apply Array_find_none_iff. now apply has_id_absent. }
    split; [exact Hnone|].
    rewrite getStaticProps_run. simpl. now rewrite Hnone.
Qed.

Lemma resolve_on_manifest_ids_witness :
  (exists d,
     Array_find (has_id "os") (manifest sample_world) = Some d /\ id d = "os") /\
  getStaticProps join_plain (spec_matter dashes closing_dashes)
    {| params_id := "unknown" |} sample_world
    = (Throw (TypeError undefined_file), sample_world).
Proof.
  destruct (resolve_on_manifest_ids join_plain (spec_matter dashes closing_dashes)
              sample_world "os") as [Hknown _].
  destruct (resolve_on_manifest_ids join_plain (spec_matter dashes closing_dashes)
              sample_world "unknown") as [_ Hunknown].
  split.
  - destruct Hknown as (d & Hfind & _ & Hid & _).
    + simpl. auto.
    + exists d. split; assumption.
  - apply Hunknown. simpl. intuition discriminate.
Defined.

(** C2 as stated fails: for the id [unknown], which no descriptor of the
    source manifest carries, [getStaticProps] throws a [TypeError], which is
    not a [NotFoundError]. *)
Lemma resolve_unknown_not_NotFoundError :
  ~ In "unknown" (map id (manifest sample_world)) /\
  fst (getStaticProps join_plain (spec_matter dashes closing_dashes)
         {| params_id := "unknown" |} sample_world)
    = Throw (TypeError undefined_file) /\
  ~ (exists e,
       fst (getStaticProps join_plain (spec_matter dashes closing_dashes)
              {| params_id := "unknown" |} sample_world) = Throw e /\
       failure_class e = Some NotFoundError).
Proof.
  split; [simpl; intuition discriminate|].
  split; [reflexivity|].
  intros (e & Hthrow & Hclass).
  vm_compute in Hthrow. injection Hthrow as <-. discriminate.
Qed.

(** C10. The descriptor [getStaticProps] resolves for an id is the one at
    the least position of the manifest that carries the id: every other
    descriptor with that id sits at a higher position.  It is that
    descriptor's file that is read and that descriptor that is returned. *)
Theorem resolve_returns_first_match (path_join : list string -> string)
  (matter : string -> Outcome GrayMatterFile) (w : World) (ident : string) :
  In ident (map id (manifest w)) ->
  exists i d,
    Array_find (has_id ident) (manifest w) = Some d /\
    nth_error (manifest w) i = Some d /\
    id d = ident /\
    (forall j y, nth_error (manifest w) j = Some y -> id y = ident -> (i <= j)%nat) /\
    snd (getStaticProps path_join matter {| params_id := ident |} w)
      = after_read w (content_path path_join w d) /\
    (forall sp, fst (getStaticProps path_join matter {| params_id := ident |} w) = Ok sp ->
                page (props sp) = d).
Proof.
  intros Hin.
  destruct (resolve_found _ _ Hin) as (i & d & Hfind & Hi & Hid & Hleast).
  destruct (getStaticProps_resolved path_join matter w ident d Hfind) as [Hw Hpage].
  exists i, d. repeat split; auto.
Qed.

Lemma resolve_returns_first_match_witness :
  exists d,
    Array_find (has_id "os") (manifest duplicate_world) = Some d /\
    nth_error (manifest duplicate_world) 1 = Some d /\
    fst (getStaticProps join_plain (spec_matter dashes closing_dashes)
           {| params_id := "os" |} duplicate_world)
      = Ok {| props := {| page := d; content := "# Processes" |} |}.
Proof.
  destruct (resolve_returns_first_match join_plain (spec_matter dashes closing_dashes)
              duplicate_world "os") as (i & d & Hfind & Hi & _ & _ & _ & Hpage).
  - simpl. auto.
  - exists d. split; [exact Hfind|].
    vm_compute in Hfind. injection Hfind as <-.
    split; reflexivity.
Defined.

(** [getStaticProps] changes nothing but the history of reads, and its
    outcome does not depend on that history. *)
Lemma getStaticProps_frame (path_join : list string -> string)
  (matter : string -> Outcome GrayMatterFile) (prm : Params) (w : World) :
  same_site (snd (getStaticProps path_join matter prm w)) w.
Proof.
  rewrite getStaticProps_run. unfold same_site.
  destruct (Array_find _ _) as [d|]; simpl; [|auto].
  destruct (files w _) as [s|e]; [destruct (matter s)|]; simpl; auto.
Qed.

Lemma getStaticProps_outcome (path_join : list string -> string)
  (matter : string -> Outcome GrayMatterFile) (prm : Params) (w1 w2 : World) :
  same_site w1 w2 ->
  fst (getStaticProps path_join matter prm w1)
  = fst (getStaticProps path_join matter prm w2).
Proof.
  intros (Hm & Hc & Hf). rewrite !getStaticProps_run.
  unfold content_path. rewrite Hm, Hc, Hf.
  destruct (Array_find _ _) as [d|]; simpl; [|reflexivity].
  destruct (files w2 _) as [s|e]; [destruct (matter s)|]; reflexivity.
Qed.

(** ** Failed reads *)

(** One failing entry makes the whole generation fail. *)
Lemma generate_fails (path_join : list string -> string)
  (matter : string -> Outcome GrayMatterFile) (entries : list PathEntry) :
  forall (w : World) (entry : PathEntry) (err : JsError),
    In entry entries ->
    fst (getStaticProps path_join matter (params entry) w) = Throw err ->
    exists err', fst (generate path_join matter entries w) = Throw err'.
Proof.
  induction entries as [|e rest IH]; intros w entry err Hin Hthrow; [contradiction|].
  simpl. unfold bind at 1.
  destruct (getStaticProps path_join matter (params e) w) as [[sp|e1] w'] eqn:Hhead.
  - destruct Hin as [-> | Hin].
    + rewrite Hhead in Hthrow. discriminate.
    + assert (Hsite : same_site w' w).
      { pose proof (getStaticProps_frame path_join matter (params e) w) as H.
        now rewrite Hhead in H. }
      destruct (IH w' entry err Hin) as [err' Herr'].
      { rewrite (getStaticProps_outcome _ _ _ w' w Hsite). exact Hthrow. }
      exists err'. unfold bind.
      destruct (generate path_join matter rest w') as [[l|e2] w'']; simpl in *;
        [discriminate | exact Herr'].
  - exists e1. reflexivity.
Qed.

(** C5. When the read of a listed descriptor's content file fails, with
    [ENOENT] because the file is absent or with any other code,
    [getStaticProps] throws that very system error after a single read:
    nothing is retried and no props are produced in its place.  The error
    is a [FileNotFoundError] for [ENOENT] and a [ReadError] otherwise, and a
    build over the manifest then fails as a whole, with no page list. *)
Theorem load_failure_is_fatal (path_join : list string -> string)
  (matter : string -> Outcome GrayMatterFile) (w : World) (d : PageDescriptor)
  (e : Errno) :
  Array_find (has_id (id d)) (manifest w) = Some d ->
  files w (content_path path_join w d) = Fails e ->
  getStaticProps path_join matter {| params_id := id d |} w
    = (Throw (SystemError e (content_path path_join w d)),
       after_read w (content_path path_join w d)) /\
  (e = ENOENT ->
   failure_class (SystemError e (content_path path_join w d)) = Some FileNotFoundError) /\
  (e <> ENOENT ->
   failure_class (SystemError e (content_path path_join w d)) = Some ReadError) /\
  (exists err, fst (build path_join matter w) = Throw err).
Proof.
  intros Hfind Hfail.
  assert (Hrun : getStaticProps path_join matter {| params_id := id d |} w
                 = (Throw (SystemError e (content_path path_join w d)),
                    after_read w (content_path path_join w d))).
  { rewrite getStaticProps_run. simpl. rewrite Hfind. simpl. now rewrite Hfail. }
  split; [exact Hrun|].
  split; [intros ->; reflexivity|].
  split; [destruct e; simpl; congruence|].
  unfold build, bind, getStaticPaths, get_manifest, ret. simpl.
  apply (generate_fails path_join matter _ w
           {| params := {| params_id := id d |} |}
           (SystemError e (content_path path_join w d))).
  - unfold Array_map. apply in_map_iff. exists d. split; [reflexivity|].
    apply (Array_find_some _ _ _ Hfind).
  - simpl. now rewrite Hrun.
Qed.

Lemma load_failure_is_fatal_witness :
  getStaticProps join_plain (spec_matter dashes closing_dashes)
    {| params_id := "crypto" |} sample_world
    = (Throw (SystemError EACCES "/site/public/content/crypto.md"),
       after_read sample_world "/site/public/content/crypto.md") /\
  (exists err,
     fst (build join_plain (spec_matter dashes closing_dashes) sample_world) = Throw err).
Proof.
  destruct (load_failure_is_fatal join_plain (spec_matter dashes closing_dashes)
              sample_world
              (mkPage "crypto" "密码学" "crypto.md" (Some "/images/crypto.jpg")) EACCES)
    as (Hrun & _ & _ & Hbuild).
  - reflexivity.
  - reflexivity.
  - split; [exact Hrun | exact Hbuild].
Defined.

(** An absent file, for comparison: the class is [FileNotFoundError]. *)
Lemma absent_file_example :
  let w := module_loaded "/elsewhere" sample_files in
  exists e,
    fst (getStaticProps join_plain (spec_matter dashes closing_dashes)
           {| params_id := "network" |} w) = Throw e /\
    failure_class e = Some FileNotFoundError.
Proof.
  eexists. split; reflexivity.
Qed.

(** ** No caching *)

(** C7. Every call of [getStaticProps] reads the descriptor's file again:
    a call appends exactly one read of the content path to the history,
    its outcome is the same whatever was read before, and a call made
    after the file has changed returns the new contents. *)
Theorem load_rereads_every_call (path_join : list string -> string)
  (matter : string -> Outcome GrayMatterFile) (w : World) (d : PageDescriptor)
  (fsys : string -> ReadOutcome) (s : string) (g : GrayMatterFile) :
  Array_find (has_id (id d)) (manifest w) = Some d ->
  fsys (content_path path_join w d) = Contents s ->
  matter s = Ok g ->
  reads (snd (getStaticProps path_join matter {| params_id := id d |} w))
    = (reads w ++ [content_path path_join w d])%list /\
  (forall w2, same_site w w2 ->
     fst (getStaticProps path_join matter {| params_id := id d |} w)
     = fst (getStaticProps path_join matter {| params_id := id d |} w2)) /\
  getStaticProps path_join matter {| params_id := id d |}
    (with_files (snd (getStaticProps path_join matter {| params_id := id d |} w)) fsys)
    = (Ok {| props := {| page := d; content := gm_content g |} |},
       mkWorld (manifest w) (cwd w) fsys
         (reads w ++ [content_path path_join w d; content_path path_join w d])%list).
Proof.
  intros Hfind Hfs Hm.
  destruct (getStaticProps_resolved path_join matter w (id d) d Hfind) as [Hw _].
  split; [now rewrite Hw|].
  split; [intros w2 Hsite; now apply getStaticProps_outcome|].
  rewrite Hw, getStaticProps_run. simpl. rewrite Hfind. simpl.
  unfold content_path in *. simpl. rewrite Hfs, Hm.
  unfold after_read. simpl. rewrite <- app_assoc. reflexivity.
Qed.

Lemma load_rereads_every_call_witness :
  fst (getStaticProps join_plain (spec_matter dashes closing_dashes)
         {| params_id := "os" |} sample_world)
    = Ok {| props := {| page := mkPage "os" "操作系统" "os.md" (Some "/images/os.jpg");
                        content := "# Processes" |} |} /\
  fst (getStaticProps join_plain (spec_matter dashes closing_dashes) {| params_id := "os" |}
         (with_files
            (snd (getStaticProps join_plain (spec_matter dashes closing_dashes)
                    {| params_id := "os" |} sample_world))
            edited_files))
    = Ok {| props := {| page := mkPage "os" "操作系统" "os.md" (Some "/images/os.jpg");
                        content := "# Threads" |} |}.
Proof.
  split; [reflexivity|].
  destruct (load_rereads_every_call join_plain (spec_matter dashes closing_dashes)
              sample_world (mkPage "os" "操作系统" "os.md" (Some "/images/os.jpg"))
              edited_files "# Threads" {| data := ""; gm_content := "# Threads" |})
    as (_ & _ & Hsecond).
  - reflexivity.
  - reflexivity.
  - reflexivity.
  - exact (f_equal fst Hsecond).
Defined.

(** ** Metadata block *)

Lemma strip_prefix_Some (p s r : string) :
  strip_prefix p s = Some r <-> s = (p ++ r)%string.
Proof.
  revert s. induction p as [|a p IH]; intros s; simpl.
  - split; [intros [= ->] | intros ->]; reflexivity.
  - destruct s as [|b s]; [split; discriminate|].
    destruct (Ascii.eqb_spec a b) as [-> | Hne].
    + rewrite IH. split; [intros -> | intros [= ->]]; reflexivity.
    + split; [discriminate | intros [= Hab _]; congruence].
Qed.

Lemma split_first_unfold (sep s : string) :
  split_first sep s =
  match strip_prefix sep s with
  | Some rest => Some (EmptyString, rest)
  | None =>
      match s with
      | EmptyString => None
      | String c s' =>
          match split_first sep s' with
          | Some (before, after) => Some (String c before, after)
          | None => None
          end
      end
  end.
Proof. destruct s; reflexivity. Qed.

(** A cut is made at the first occurrence of the separator. *)
Lemma split_first_Some (sep s a b : string) :
  split_first sep s = Some (a, b) ->
  s = (a ++ sep ++ b)%string /\
  forall a' b', s = (a' ++ sep ++ b')%string ->
                (String.length a <= String.length a')%nat.
Proof.
  revert a b. induction s as [|c s IH]; intros a b; rewrite split_first_unfold.
  - destruct (strip_prefix sep "") as [rest|] eqn:Hp; [|discriminate].
    intros [= <- <-]. apply strip_prefix_Some in Hp.
    split; [exact Hp | intros; simpl; lia].
  - destruct (strip_prefix sep (String c s)) as [rest|] eqn:Hp.
    + intros [= <- <-]. apply strip_prefix_Some in Hp.
      split; [exact Hp | intros; simpl; lia].
    + destruct (split_first sep s) as [[a0 b0]|] eqn:Hs; [|discriminate].
      intros [= <- <-]. destruct (IH a0 b0 eq_refl) as [Heq Hmin].
      split; [simpl; now rewrite <- Heq|].
      intros [|c' a'] b' Hocc; simpl in Hocc.
      * apply strip_prefix_Some in Hocc. congruence.
      * injection Hocc as _ Hocc. simpl. apply le_n_S. now apply (Hmin a' b').
Qed.

(** No cut is made only when the separator does not occur. *)
Lemma split_first_None (sep s : string) :
  split_first sep s = None ->
  forall a b, s <> (a ++ sep ++ b)%string.
Proof.
  induction s as [|c s IH]; rewrite split_first_unfold.
  - destruct (strip_prefix sep "") as [rest|] eqn:Hp; [discriminate|].
    intros _ [|c' a] b Hocc; simpl in Hocc; [|discriminate].
    apply strip_prefix_Some in Hocc. congruence.
  - destruct (strip_prefix sep (String c s)) as [rest|] eqn:Hp; [discriminate|].
    destruct (split_first sep s) as [[a0 b0]|] eqn:Hs; [discriminate|].
    intros _ [|c' a] b Hocc; simpl in Hocc.
    + apply strip_prefix_Some in Hocc. congruence.
    + injection Hocc as _ Hocc. exact (IH eq_refl a b Hocc).
Qed.

Lemma append_cancel (p r1 r2 : string) :
  (p ++ r1)%string = (p ++ r2)%string -> r1 = r2.
Proof.
  induction p as [|a p IH]; simpl; [auto|]. intros [= H]. auto.
Qed.

(** The block [metadata_block] finds is the opening delimiter, the
    shortest metadata that is followed by the closing delimiter, and that
    closing delimiter; when it finds none the text has no such block. *)
Lemma metadata_block_spec (opening closing s : string) :
  match metadata_block opening closing s with
  | Some (meta, body) =>
      s = (opening ++ meta ++ closing ++ body)%string /\
      forall meta' body', s = (opening ++ meta' ++ closing ++ body')%string ->
                          (String.length meta <= String.length meta')%nat
  | None => forall meta' body', s <> (opening ++ meta' ++ closing ++ body')%string
  end.
Proof.
  unfold metadata_block.
  destruct (strip_prefix opening s) as [rest|] eqn:Hp.
  - apply strip_prefix_Some in Hp.
    destruct (split_first closing rest) as [[meta body]|] eqn:Hs.
    + destruct (split_first_Some _ _ _ _ Hs) as [Heq Hmin].
      split; [now rewrite <- Heq|].
      intros meta' body' Hocc. rewrite Hp in Hocc.
      apply append_cancel in Hocc. now apply (Hmin meta' body').
    + intros meta' body' Hocc. rewrite Hp in Hocc.
      apply append_cancel in Hocc. exact (split_first_None _ _ Hs _ _ Hocc).
  - intros meta' body' Hocc.
    assert (strip_prefix opening s = Some (meta' ++ closing ++ body')%string)
      by now apply strip_prefix_Some.
    congruence.
Qed.

(** C4. With [matter] as the design document describes it, loading a
    descriptor whose file holds [s] returns the descriptor and a body such
    that either [s] is the opening delimiter, the metadata up to the first
    closing delimiter, that delimiter and the body, so that exactly the
    leading block is removed and the rest is returned as it is; or [s] has
    no leading delimited block and the body is [s] itself. *)
Theorem load_strips_metadata_block (path_join : list string -> string)
  (opening closing : string) (w : World) (d : PageDescriptor) (s : string) :
  Array_find (has_id (id d)) (manifest w) = Some d ->
  files w (content_path path_join w d) = Contents s ->
  exists body,
    fst (getStaticProps path_join (spec_matter opening closing) {| params_id := id d |} w)
      = Ok {| props := {| page := d; content := body |} |} /\
    ((exists meta,
        s = (opening ++ meta ++ closing ++ body)%string /\
        forall meta' body', s = (opening ++ meta' ++ closing ++ body')%string ->
                            (String.length meta <= String.length meta')%nat)
     \/
     (body = s /\
      forall meta' body', s <> (opening ++ meta' ++ closing ++ body')%string)).
Proof.
  intros Hfind Hfile.
  rewrite getStaticProps_run. simpl. rewrite Hfind. simpl. rewrite Hfile.
  unfold spec_matter.
  pose proof (metadata_block_spec opening closing s) as Hblock.
  destruct (metadata_block opening closing s) as [[meta body]|].
  - exists body. split; [reflexivity|]. left. exists meta. exact Hblock.
  - exists s. split; [reflexivity|]. right. split; [reflexivity | exact Hblock].
Qed.

Lemma load_strips_metadata_block_witness :
  fst (getStaticProps join_plain (spec_matter dashes closing_dashes)
         {| params_id := "network" |} sample_world)
    = Ok {| props := {| page := mkPage "network" "计算机网络" "network.md"
                                   (Some "/images/network.jpg");
                        content := String (ascii_of_nat 10) "# TCP" |} |} /\
  fst (getStaticProps join_plain (spec_matter dashes closing_dashes)
         {| params_id := "os" |} sample_world)
    = Ok {| props := {| page := mkPage "os" "操作系统" "os.md" (Some "/images/os.jpg");
                        content := "# Processes" |} |}.
Proof.
  split.
  - destruct (load_strips_metadata_block join_plain dashes closing_dashes sample_world
                (mkPage "network" "计算机网络" "network.md" (Some "/images/network.jpg"))
                (dashes ++ String (ascii_of_nat 10) "title: network"
                 ++ closing_dashes ++ String (ascii_of_nat 10) "# TCP"))
      as (body & Hrun & _); reflexivity.
  - destruct (load_strips_metadata_block join_plain dashes closing_dashes sample_world
                (mkPage "os" "操作系统" "os.md" (Some "/images/os.jpg")) "# Processes")
      as (body & Hrun & _); reflexivity.
Defined.

(** ** Purity of the resolver *)

Lemma LearnPage_world (p : Props) (cell : HookCell) (w : World) :
  snd (LearnPage p cell w) = w.
Proof.
  unfold LearnPage, bind, get_manifest, ret.
  destruct (useState _ cell). reflexivity.
Qed.




(** For contrast, [getStaticProps] is not pure in this sense: it extends
    the history of reads, and a render of an instance that was mounted for
    another page keeps the neighbours of that page. *)
Lemma getStaticProps_reads_example :
  reads (snd (getStaticProps join_plain (spec_matter dashes closing_dashes)
                {| params_id := "os" |} sample_world))
  = ["/site/public/content/os.md"].
Proof. reflexivity. Qed.

Lemma stale_index_example :
  exists r,
    LearnPage {| page := mkPage "os" "操作系统" "os.md" (Some "/images/os.jpg");
                 content := "" |} (Some 0) sample_world
      = (Ok (r, Some 0), sample_world) /\
    prev r = None /\
    option_map id (next r) = Some "os".
Proof.
  eexists. split; [reflexivity|]. split; reflexivity.
Qed.

(** * Further properties of the module *)

(** ** The two lookups together *)

(** [find] and [findIndex] with the same predicate either both miss or
    both stop at the same, least, position. *)
Lemma lookup_cases {A} (p : A -> bool) (xs : list A) (k : Z) :
  (Array_find p xs = None /\ findIndex_from p xs k = -1 /\
   forall x, In x xs -> p x = false)
  \/
  (exists i x,
     nth_error xs i = Some x /\ p x = true /\
     (forall j y, (j < i)%nat -> nth_error xs j = Some y -> p y = false) /\
     Array_find p xs = Some x /\ findIndex_from p xs k = k + Z.of_nat i).
Proof.
  destruct (Array_find p xs) as [x|] eqn:Hfind.
  - right. destruct (Array_find_position p xs x Hfind) as (i & Hi & Hleast).
    destruct (Array_find_some p xs x Hfind) as [_ Hp].
    exists i, x. repeat split; auto.
    apply (lookup_first p xs i x k Hi Hp Hleast).
  - left. pose proof (proj1 (Array_find_none_iff p xs) Hfind) as Hall.
    repeat split; auto. apply (lookup_miss p xs k Hall).
Qed.

Lemma Array_get_In {A} (xs : list A) (i : Z) (x : A) :
  Array_get xs i = Some x -> In x xs.
Proof.
  unfold Array_get. destruct (i <? 0); [discriminate|]. apply nth_error_In.
Qed.

(** A render in any instance state, spelled out. *)
Lemma LearnPage_any (p : Props) (cell : HookCell) (w : World) :
  let i := match cell with
           | None => Array_findIndex (has_id (id (page p))) (manifest w)
           | Some stored => stored
           end in
  exists r,
    LearnPage p cell w = (Ok (r, Some i), w) /\
    index r = i /\
    next r = (if i <? Array_length (manifest w) - 1
              then Array_get (manifest w) (i + 1) else None) /\
    prev r = (if i >? 0 then Array_get (manifest w) (i - 1) else None) /\
    backgroundStyle r =
      (if truthy (bg (page p))
       then [ ("backgroundImage", "url(" ++ template (bg (page p)) ++ ")");
              ("backgroundSize", "cover");
              ("backgroundPosition", "center") ]
       else default_style).
Proof.
  destruct cell as [stored|]; simpl; eexists; (split; [reflexivity|]); simpl; auto.
Qed.

(** The markup is built from what the head computed, and building it
    leaves the world as it was. *)
Lemma LearnPage_return_run (p : Props) (cell : HookCell) (w : World) :
  exists r cell',
    LearnPage p cell w = (Ok (r, cell'), w) /\
    LearnPage_return p cell w
    = (Ok ({| style := backgroundStyle r;
              header_prev := prev_link (prev r);
              header_next := next_link (next r);
              toc := Array_map (toc_item (page p)) (manifest w);
              motion_key := id (page p);
              markdown := content p;
              footer_counter :=
                [ Text "当前页："; Text (title (page p)); Text " （";
                  Number (index r + 1); Text "/"; Number (Array_length (manifest w));
                  Text "）" ] |}, cell'), w).
Proof.
  destruct (LearnPage_any p cell w) as (r & Hrun & _).
  do 2 eexists. split; [exact Hrun|].
  unfold LearnPage_return, bind. rewrite Hrun. reflexivity.
Qed.

(** Whatever the instance state, the neighbours are entries of the
    manifest. *)
Lemma neighbours_in_manifest (p : Props) (cell : HookCell) (w : World)
  (r : Rendered) (cell' : HookCell) :
  LearnPage p cell w = (Ok (r, cell'), w) ->
  (forall d, prev r = Some d -> In d (manifest w)) /\
  (forall d, next r = Some d -> In d (manifest w)).
Proof.
  intros Hrun.
  destruct (LearnPage_any p cell w) as (r0 & Hrun0 & _ & Hnext & Hprev & _).
  rewrite Hrun in Hrun0. injection Hrun0 as <- _.
  split; intros d Hd.
  - rewrite Hprev in Hd. destruct (_ >? 0); [|discriminate].
    eapply Array_get_In; eauto.
  - rewrite Hnext in Hd. destruct (_ <? _); [|discriminate].
    eapply Array_get_In; eauto.
Qed.

(** ** Links of the page *)

(** X1. In every instance state, each [href] the component builds itself,
    in the header and in the table of contents, is [/] followed by an id
    that [getStaticPaths] lists: the navigation of the page never points to
    a route that is not generated.  Links written in the document itself
    are rendered by [ReactMarkdown] and are not covered. *)
Theorem links_target_listed_routes (p : Props) (cell : HookCell) (w : World) :
  exists mk cell' sp,
    LearnPage_return p cell w = (Ok (mk, cell'), w) /\
    getStaticPaths w = (Ok sp, w) /\
    forall h, In h (markup_hrefs mk) ->
              exists ident, In ident (listed_ids sp) /\ h = "/" ++ ident.
Proof.
  destruct (LearnPage_return_run p cell w) as (r & cell' & Hhead & Hrun).
  destruct (neighbours_in_manifest p cell w r cell' Hhead) as [Hprev Hnext].
  do 3 eexists. split; [exact Hrun|]. split; [reflexivity|].
  assert (Hlisted : forall d, In d (manifest w) ->
            In (id d) (listed_ids
                         {| paths := Array_map
                                       (fun m => {| params := {| params_id := id m |} |})
                                       (manifest w);
                            fallback := false |})).
  { intros d Hd. unfold listed_ids, Array_map. simpl. rewrite map_map. simpl.
    now apply (in_map id). }
  intros h Hh. unfold markup_hrefs in Hh. simpl in Hh.
  apply in_app_or in Hh. destruct Hh as [Hh | Hh].
  - destruct (prev r) as [d|]; simpl in Hh; [|contradiction].
    destruct Hh as [<- | []]. exists (id d). split; [|reflexivity].
    apply Hlisted, Hprev. reflexivity.
  - apply in_app_or in Hh. destruct Hh as [Hh | Hh].
    + destruct (next r) as [d|]; simpl in Hh; [|contradiction].
      destruct Hh as [<- | []]. exists (id d). split; [|reflexivity].
      apply Hlisted, Hnext. reflexivity.
    + unfold Array_map in Hh. rewrite map_map in Hh. simpl in Hh.
      apply in_map_iff in Hh. destruct Hh as (d & <- & Hd).
      exists (id d). split; [now apply Hlisted | reflexivity].
Qed.

(** X2. In every instance state the table of contents has one item per
    manifest entry, in manifest order, keyed by the id, linking to the
    entry's route and showing its title; an item carries the active class
    exactly when its entry has the id of the page, so with unique ids at
    most one item is active, and for an id outside the manifest none is. *)
Theorem toc_marks_current_page (p : Props) (cell : HookCell) (w : World) :
  exists mk cell',
    LearnPage_return p cell w = (Ok (mk, cell'), w) /\
    map key (toc mk) = map id (manifest w) /\
    (forall j item,
       nth_error (toc mk) j = Some item ->
       exists m,
         nth_error (manifest w) j = Some m /\
         href (link item) = "/" ++ id m /\
         label (link item) = title m /\
         (className (link item) = active_class <-> id m = id (page p))) /\
    (NoDup (map id (manifest w)) ->
     forall i j a b,
       nth_error (toc mk) i = Some a -> className (link a) = active_class ->
       nth_error (toc mk) j = Some b -> className (link b) = active_class ->
       i = j) /\
    (~ In (id (page p)) (map id (manifest w)) ->
     forall item, In item (toc mk) -> className (link item) <> active_class).
Proof.
  destruct (LearnPage_return_run p cell w) as (r & cell' & _ & Hrun).
  do 2 eexists. split; [exact Hrun|]. simpl.
  assert (Hitem : forall j item,
            nth_error (Array_map (toc_item (page p)) (manifest w)) j = Some item ->
            exists m,
              nth_error (manifest w) j = Some m /\
              href (link item) = "/" ++ id m /\
              label (link item) = title m /\
              (className (link item) = active_class <-> id m = id (page p))).
  { intros j item Hj. unfold Array_map in Hj. rewrite nth_error_map in Hj.
    destruct (nth_error (manifest w) j) as [m|]; [|discriminate].
    injection Hj as <-. exists m. repeat split; simpl.
    - destruct (String.eqb_spec (id m) (id (page p))) as [Heq | Hne]; [auto|].
      intros Hc. discriminate Hc.
    - intros ->. now rewrite String.eqb_refl. }
  split; [unfold Array_map; rewrite map_map; reflexivity|].
  split; [exact Hitem|].
  split.
  - intros Hnd i j a b Hi Ha Hj Hb.
    destruct (Hitem i a Hi) as (m1 & Hm1 & _ & _ & Hact1).
    destruct (Hitem j b Hj) as (m2 & Hm2 & _ & _ & Hact2).
    apply Hact1 in Ha. apply Hact2 in Hb.
    apply (proj1 (NoDup_nth_error (map id (manifest w))) Hnd i j).
    + rewrite length_map. apply nth_error_Some. congruence.
    + rewrite !nth_error_map, Hm1, Hm2. simpl. congruence.
  - intros Hout item Hin Hact.
    apply In_nth_error in Hin. destruct Hin as [j Hj].
    destruct (Hitem j item Hj) as (m & Hm & _ & _ & Hiff).
    apply Hout. rewrite <- (proj1 Hiff Hact).
    apply in_map. eapply nth_error_In; eauto.
Qed.

(** ** Footer counter *)

(** X3. On the first render the footer shows the title of the page, a
    position and the length of the manifest.  The position lies between 0
    and the length; it is 0 exactly when no descriptor carries the id of
    the page, and otherwise it is one more than the least position of a
    descriptor with that id. *)
Theorem footer_counter_range (p : Props) (w : World) :
  exists mk cell' k,
    LearnPage_return p None w = (Ok (mk, cell'), w) /\
    footer_counter mk =
      [ Text "当前页："; Text (title (page p)); Text " （";
        Number k; Text "/"; Number (Array_length (manifest w)); Text "）" ] /\
    0 <= k <= Array_length (manifest w) /\
    (k = 0 <-> ~ In (id (page p)) (map id (manifest w))) /\
    (0 < k ->
     exists d,
       nth_error (manifest w) (Z.to_nat (k - 1)) = Some d /\
       id d = id (page p) /\
       forall j y, nth_error (manifest w) j = Some y -> id y = id (page p) ->
                   (Z.to_nat (k - 1) <= j)%nat).
Proof.
  destruct (LearnPage_return_run p None w) as (r & cell' & Hhead & Hrun).
  destruct (LearnPage_any p None w) as (r0 & Hrun0 & Hidx & _).
  rewrite Hhead in Hrun0. injection Hrun0 as <- _. simpl in Hidx.
  eexists. exists cell', (index r + 1). split; [exact Hrun|]. split; [reflexivity|].
  rewrite Hidx. unfold Array_findIndex, Array_length.
  destruct (lookup_cases (has_id (id (page p))) (manifest w) 0)
    as [(_ & -> & Hall) | (i & x & Hi & Hp & Hleast & _ & ->)].
  - split; [lia|]. split; [|lia]. split; [|reflexivity].
    intros _ Hin. apply in_map_iff in Hin. destruct Hin as (d & Hid & Hd).
    specialize (Hall d Hd). unfold has_id in Hall.
    apply String.eqb_neq in Hall. contradiction.
  - assert (Hlen : (i < List.length (manifest w))%nat)
      by (apply nth_error_Some; congruence).
    unfold has_id in Hp. apply String.eqb_eq in Hp.
    split; [lia|]. split.
    + split; [lia|]. intros Hout. exfalso. apply Hout. rewrite <- Hp.
      apply in_map. eapply nth_error_In; eauto.
    + intros _. replace (Z.to_nat (0 + Z.of_nat i + 1 - 1)) with i by lia.
      exists x. repeat split; auto.
      intros j y Hj Hy.
      destruct (Nat.le_gt_cases i j) as [Hle | Hlt]; [exact Hle|].
      specialize (Hleast j y Hlt Hj). unfold has_id in Hleast.
      apply String.eqb_neq in Hleast. contradiction.
Qed.

(** ** From [getStaticProps] to the component *)

(** X4. Props that [getStaticProps] returns never meet the [-1] case of
    the component: on a first render in the world the call left behind, the
    index is a position of the manifest, the entry there is the page of the
    props, and the footer position is at least 1. *)
Theorem props_index_is_position (path_join : list string -> string)
  (matter : string -> Outcome GrayMatterFile) (prm : Params) (w w' : World)
  (sp : StaticProps) :
  getStaticProps path_join matter prm w = (Ok sp, w') ->
  exists r i,
    LearnPage (props sp) None w' = (Ok (r, Some (Z.of_nat i)), w') /\
    index r = Z.of_nat i /\
    nth_error (manifest w') i = Some (page (props sp)) /\
    id (page (props sp)) = params_id prm.
Proof.
  rewrite getStaticProps_run.
  destruct (lookup_cases (has_id (params_id prm)) (manifest w) 0)
    as [(-> & _) | (i & d & Hi & Hp & Hleast & -> & Hidx)]; [discriminate|].
  simpl. unfold has_id in Hp. apply String.eqb_eq in Hp.
  destruct (files w _) as [s|e]; [destruct (matter s) as [g|e]|]; try discriminate.
  intros [= <- <-]. simpl.
  destruct (LearnPage_any {| page := d; content := gm_content g |} None
              (after_read w (content_path path_join w d)))
    as (r & Hrun & Hr & _).
  simpl in *. unfold Array_findIndex in *. rewrite Hp, Hidx in *.
  exists r, i. repeat split; auto.
Qed.

Lemma props_index_is_position_witness :
  exists r,
    LearnPage {| page := mkPage "os" "操作系统" "os.md" (Some "/images/os.jpg");
                 content := "# Processes" |} None
      (after_read sample_world "/site/public/content/os.md")
    = (Ok (r, Some 1), after_read sample_world "/site/public/content/os.md") /\
    index r = 1.
Proof.
  destruct (props_index_is_position join_plain (spec_matter dashes closing_dashes)
              {| params_id := "os" |} sample_world
              (after_read sample_world "/site/public/content/os.md")
              {| props := {| page := mkPage "os" "操作系统" "os.md" (Some "/images/os.jpg");
                             content := "# Processes" |} |})
    as (r & i & Hrun & Hidx & Hnth & _).
  - reflexivity.
  - assert (i = 1%nat) as ->.
    { destruct i as [|[|[|i]]]; simpl in Hnth; try discriminate; try reflexivity.
      destruct i; discriminate. }
    exists r. split; [exact Hrun | exact Hidx].
Defined.

(** ** Background style, all cases *)

(** X5. In every instance state the style of the page is the default
    gradient exactly when [bg] is missing or the empty string; otherwise it
    is the cover image of that url.  The text [undefined] never reaches the
    style. *)
Theorem background_style_cases (p : Props) (cell : HookCell) (w : World) :
  exists mk cell',
    LearnPage_return p cell w = (Ok (mk, cell'), w) /\
    (style mk = default_style <-> bg (page p) = None \/ bg (page p) = Some "") /\
    (style mk <> default_style ->
     exists url,
       bg (page p) = Some url /\ url <> "" /\
       style mk = [ ("backgroundImage", "url(" ++ url ++ ")");
                    ("backgroundSize", "cover");
                    ("backgroundPosition", "center") ]).
Proof.
  destruct (LearnPage_return_run p cell w) as (r & cell' & Hhead & Hrun).
  destruct (LearnPage_any p cell w) as (r0 & Hrun0 & _ & _ & _ & Hstyle).
  rewrite Hhead in Hrun0. injection Hrun0 as <- _.
  do 2 eexists. split; [exact Hrun|]. simpl. rewrite Hstyle.
  destruct (bg (page p)) as [url|]; simpl.
  - destruct (String.eqb_spec url "") as [-> | Hne]; simpl.
    + split; [tauto | intros H; now contradiction H].
    + split.
      * split; [discriminate | intros [H | [= H]]; [discriminate | contradiction]].
      * intros _. exists url. auto.
  - split; [tauto | intros H; now contradiction H].
Qed.

(** ** Images of the document *)

Lemma obj_get_set_same (k : string) (v : PropValue) (o : JsObject) :
  obj_get k (obj_set k v o) = Some v.
Proof.
  induction o as [|[k' v'] rest IH]; simpl.
  - now rewrite String.eqb_refl.
  - destruct (String.eqb_spec k' k) as [-> | Hne]; simpl.
    + now rewrite String.eqb_refl.
    + apply String.eqb_neq in Hne. now rewrite Hne.
Qed.

Lemma obj_get_set_other (k k0 : string) (v : PropValue) (o : JsObject) :
  k0 <> k -> obj_get k0 (obj_set k v o) = obj_get k0 o.
Proof.
  intros Hne. induction o as [|[k' v'] rest IH]; simpl.
  - apply not_eq_sym in Hne. apply String.eqb_neq in Hne. now rewrite Hne.
  - destruct (String.eqb_spec k' k) as [-> | Hk]; simpl.
    + apply not_eq_sym in Hne. apply String.eqb_neq in Hne. now rewrite Hne.
    + destruct (k' =? k0)%string; [reflexivity | exact IH].
Qed.

(** X6. Whatever props an image of the document comes with, the [<img>]
    element is lazy-loaded and carries the fixed class: a [loading] or
    [className] of the document's own is overridden, and every other
    property is passed on as it is. *)
Theorem img_forces_lazy (image_props : JsObject) :
  obj_get "loading" (img image_props) = Some (PString "lazy") /\
  obj_get "className" (img image_props)
    = Some (PString "rounded shadow-md mx-auto my-4") /\
  forall k, k <> "loading" -> k <> "className" ->
            obj_get k (img image_props) = obj_get k image_props.
Proof.
  unfold img. split; [|split].
  - rewrite obj_get_set_other by discriminate. apply obj_get_set_same.
  - apply obj_get_set_same.
  - intros k Hl Hc. now rewrite !obj_get_set_other.
Qed.

(** ** What [getStaticProps] reads and when it succeeds *)

(** X7. A call of [getStaticProps] reads nothing when no descriptor
    carries the requested id, and otherwise reads exactly one path, the
    content path of a descriptor of the manifest with that id: the
    requested id itself never becomes part of a path.  The manifest, the
    directory and the file system are left as they were. *)
Theorem reads_only_manifest_files (path_join : list string -> string)
  (matter : string -> Outcome GrayMatterFile) (prm : Params) (w : World) :
  same_site (snd (getStaticProps path_join matter prm w)) w /\
  ((~ In (params_id prm) (map id (manifest w)) /\
    reads (snd (getStaticProps path_join matter prm w)) = reads w)
   \/
   (exists d,
      In d (manifest w) /\ id d = params_id prm /\
      reads (snd (getStaticProps path_join matter prm w))
        = (reads w ++ [content_path path_join w d])%list)).
Proof.
  split; [apply getStaticProps_frame|].
  destruct (Array_find (has_id (params_id prm)) (manifest w)) as [d|] eqn:Hfind.
  - right. destruct (Array_find_some _ _ _ Hfind) as [Hin Hid].
    unfold has_id in Hid. apply String.eqb_eq in Hid.
    destruct prm as [ident]. simpl in *.
    destruct (getStaticProps_resolved path_join matter w ident d Hfind) as [Hw _].
    exists d. rewrite Hw. auto.
  - left. rewrite getStaticProps_run, Hfind. simpl. split; [|reflexivity].
    intros Hin. apply in_map_iff in Hin. destruct Hin as (d & Hid & Hd).
    pose proof (proj1 (Array_find_none_iff _ _) Hfind d Hd) as Hno.
    unfold has_id in Hno. apply String.eqb_neq in Hno. contradiction.
Qed.

(** X8. [getStaticProps] succeeds exactly when the id is found, the file
    of the found descriptor can be read and [matter] accepts its contents;
    the props then carry that descriptor and the content [matter] returned,
    as it is.  An error thrown by [matter] is thrown on unchanged, after
    the one read. *)
Theorem getStaticProps_succeeds_iff (path_join : list string -> string)
  (matter : string -> Outcome GrayMatterFile) (prm : Params) (w : World) :
  (forall sp,
     fst (getStaticProps path_join matter prm w) = Ok sp <->
     exists d s g,
       Array_find (has_id (params_id prm)) (manifest w) = Some d /\
       files w (content_path path_join w d) = Contents s /\
       matter s = Ok g /\
       sp = {| props := {| page := d; content := gm_content g |} |}) /\
  (forall d s e,
     Array_find (has_id (params_id prm)) (manifest w) = Some d ->
     files w (content_path path_join w d) = Contents s ->
     matter s = Throw e ->
     getStaticProps path_join matter prm w
       = (Throw e, after_read w (content_path path_join w d))).
Proof.
  rewrite getStaticProps_run. split.
  - intros sp. split.
    + destruct (Array_find _ _) as [d|]; [|discriminate]. simpl.
      destruct (files w _) as [s|e] eqn:Hf; [|discriminate].
      destruct (matter s) as [g|e] eqn:Hm; [|discriminate].
      intros [= <-]. exists d, s, g. auto.
    + intros (d & s & g & -> & Hf & Hm & ->). simpl. now rewrite Hf, Hm.
  - intros d s e -> Hf Hm. simpl. now rewrite Hf, Hm.
Qed.

(** ** Paths and descriptors by position *)

Lemma unique_position (m : list PageDescriptor) (i j : nat) (a b : PageDescriptor) :
  NoDup (map id m) ->
  nth_error m i = Some a ->
  nth_error m j = Some b ->
  id a = id b ->
  i = j.
Proof.
  intros Hnd Hi Hj Hid.
  apply (proj1 (NoDup_nth_error (map id m)) Hnd i j).
  - rewrite length_map. apply nth_error_Some. congruence.
  - rewrite !nth_error_map, Hi, Hj. simpl. now rewrite Hid.
Qed.

(** X9. With unique ids, the path at position [i] of what
    [getStaticPaths] returns leads [getStaticProps] to the descriptor at
    position [i] of the manifest: its file is the one read, and it is the
    page of any props returned. *)
Theorem listed_path_resolves_same_position (path_join : list string -> string)
  (matter : string -> Outcome GrayMatterFile) (w : World) (sp : StaticPaths)
  (i : nat) (entry : PathEntry) :
  NoDup (map id (manifest w)) ->
  fst (getStaticPaths w) = Ok sp ->
  nth_error (paths sp) i = Some entry ->
  exists d,
    nth_error (manifest w) i = Some d /\
    params_id (params entry) = id d /\
    snd (getStaticProps path_join matter (params entry) w)
      = after_read w (content_path path_join w d) /\
    (forall sp', fst (getStaticProps path_join matter (params entry) w) = Ok sp' ->
                 page (props sp') = d).
Proof.
  intros Hnd Hpaths Hentry.
  unfold getStaticPaths, bind, get_manifest, ret in Hpaths. simpl in Hpaths.
  injection Hpaths as <-. simpl in Hentry.
  unfold Array_map in Hentry. rewrite nth_error_map in Hentry.
  destruct (nth_error (manifest w) i) as [d|] eqn:Hi; [|discriminate].
  injection Hentry as <-. simpl.
  destruct (lookup_first (has_id (id d)) (manifest w) i d 0 Hi (has_id_self d)
              (unique_id_first _ _ _ Hnd Hi)) as [Hfind _].
  destruct (getStaticProps_resolved path_join matter w (id d) d Hfind) as [Hw Hpage].
  exists d. auto.
Qed.

Lemma listed_path_resolves_same_position_witness :
  exists d,
    nth_error (manifest sample_world) 2 = Some d /\
    id d = "crypto" /\
    reads (snd (getStaticProps join_plain (spec_matter dashes closing_dashes)
                  {| params_id := "crypto" |} sample_world))
      = ["/site/public/content/crypto.md"].
Proof.
  destruct (listed_path_resolves_same_position join_plain
              (spec_matter dashes closing_dashes) sample_world
              {| paths := [ {| params := {| params_id := "network" |} |};
                            {| params := {| params_id := "os" |} |};
                            {| params := {| params_id := "crypto" |} |} ];
                 fallback := false |}
              2 {| params := {| params_id := "crypto" |} |})
    as (d & Hd & Hid & Hw & _).
  - repeat constructor; simpl; intuition discriminate.
  - reflexivity.
  - reflexivity.
  - exists d. split; [exact Hd|]. split; [now rewrite <- Hid|].
    simpl in Hd. injection Hd as <-. exact (f_equal reads Hw).
Defined.

(** ** Neighbours as a chain *)

(** The first render of the page at position [i], with unique ids. *)
Lemma mount_at_position (w : World) (i : nat) (d : PageDescriptor) (body : string) :
  NoDup (map id (manifest w)) ->
  nth_error (manifest w) i = Some d ->
  exists r,
    LearnPage {| page := d; content := body |} None w = (Ok (r, Some (Z.of_nat i)), w) /\
    prev r = match i with O => None | S j => nth_error (manifest w) j end /\
    next r = nth_error (manifest w) (S i).
Proof.
  intros Hnd Hi.
  destruct (LearnPage_any {| page := d; content := body |} None w)
    as (r & Hrun & _ & Hnext & Hprev & _).
  simpl in *. unfold Array_findIndex in *.
  destruct (lookup_first (has_id (id d)) (manifest w) i d 0 Hi (has_id_self d)
              (unique_id_first _ _ _ Hnd Hi)) as [_ Hidx].
  rewrite Hidx in *. simpl in *.
  rewrite next_entry in Hnext by (apply nth_error_Some; congruence).
  rewrite prev_entry in Hprev.
  exists r. auto.
Qed.

(** X10. With unique ids, [next] and [prev] of first renders undo each
    other: for two descriptors [a] and [b] of the manifest, [b] is the next
    page of [a] exactly when [a] is the previous page of [b]. *)
Theorem next_prev_inverse (w : World) (a b : PageDescriptor) (body_a body_b : string) :
  NoDup (map id (manifest w)) ->
  In a (manifest w) ->
  In b (manifest w) ->
  exists ra rb ca cb,
    LearnPage {| page := a; content := body_a |} None w = (Ok (ra, ca), w) /\
    LearnPage {| page := b; content := body_b |} None w = (Ok (rb, cb), w) /\
    (next ra = Some b <-> prev rb = Some a).
Proof.
  intros Hnd Ha Hb.
  apply In_nth_error in Ha. destruct Ha as [i Hi].
  apply In_nth_error in Hb. destruct Hb as [j Hj].
  destruct (mount_at_position w i a body_a Hnd Hi) as (ra & Hra & _ & Hnext).
  destruct (mount_at_position w j b body_b Hnd Hj) as (rb & Hrb & Hprev & _).
  exists ra, rb, (Some (Z.of_nat i)), (Some (Z.of_nat j)).
  split; [exact Hra|]. split; [exact Hrb|].
  rewrite Hnext, Hprev. split.
  - intros Hsucc.
    assert (S i = j) as <- by (eapply unique_position; eauto).
    exact Hi.
  - destruct j as [|j']; [discriminate|]. intros Hpred.
    assert (j' = i) as -> by (eapply unique_position; eauto).
    exact Hj.
Qed.

Lemma next_prev_inverse_witness :
  exists ra rb ca cb,
    LearnPage {| page := mkPage "network" "计算机网络" "network.md"
                           (Some "/images/network.jpg"); content := "" |}
      None sample_world = (Ok (ra, ca), sample_world) /\
    LearnPage {| page := mkPage "os" "操作系统" "os.md" (Some "/images/os.jpg");
                 content := "" |}
      None sample_world = (Ok (rb, cb), sample_world) /\
    (next ra = Some (mkPage "os" "操作系统" "os.md" (Some "/images/os.jpg")) <->
     prev rb = Some (mkPage "network" "计算机网络" "network.md"
                       (Some "/images/network.jpg"))).
Proof.
  apply (next_prev_inverse sample_world
           (mkPage "network" "计算机网络" "network.md" (Some "/images/network.jpg"))
           (mkPage "os" "操作系统" "os.md" (Some "/images/os.jpg")) "" "").
  - repeat constructor; simpl; intuition discriminate.
  - simpl. auto.
  - simpl. auto.
Defined.

(** X11. With unique ids, the first render of a page of the manifest never
    offers the page itself as a neighbour, and never the same page on both
    sides. *)
Theorem neighbours_are_other_pages (w : World) (d : PageDescriptor) (body : string) :
  NoDup (map id (manifest w)) ->
  In d (manifest w) ->
  exists r cell',
    LearnPage {| page := d; content := body |} None w = (Ok (r, cell'), w) /\
    (forall a, prev r = Some a -> id a <> id d) /\
    (forall b, next r = Some b -> id b <> id d) /\
    (forall a b, prev r = Some a -> next r = Some b -> id a <> id b).
Proof.
  intros Hnd Hd.
  apply In_nth_error in Hd. destruct Hd as [i Hi].
  destruct (mount_at_position w i d body Hnd Hi) as (r & Hrun & Hprev & Hnext).
  exists r, (Some (Z.of_nat i)). split; [exact Hrun|].
  rewrite Hprev, Hnext. repeat split.
  - destruct i as [|j]; [discriminate|]. intros a Ha Hid.
    pose proof (unique_position _ _ _ _ _ Hnd Ha Hi Hid). lia.
  - intros b Hb Hid.
    pose proof (unique_position _ _ _ _ _ Hnd Hb Hi Hid). lia.
  - destruct i as [|j]; [discriminate|]. intros a b Ha Hb Hid.
    pose proof (unique_position _ _ _ _ _ Hnd Ha Hb Hid). lia.
Qed.

Lemma neighbours_are_other_pages_witness :
  exists r cell',
    LearnPage {| page := mkPage "os" "操作系统" "os.md" (Some "/images/os.jpg");
                 content := "" |} None sample_world = (Ok (r, cell'), sample_world) /\
    (forall a, prev r = Some a -> id a <> "os") /\
    (forall b, next r = Some b -> id b <> "os").
Proof.
  destruct (neighbours_are_other_pages sample_world
              (mkPage "os" "操作系统" "os.md" (Some "/images/os.jpg")) "")
    as (r & cell' & Hrun & Hprev & Hnext & _).
  - repeat constructor; simpl; intuition discriminate.
  - simpl. auto.
  - exists r, cell'. split; [exact Hrun | split; [exact Hprev | exact Hnext]].
Defined.

(** ** Renders after the first *)

(** X12. The index is taken when an instance is first rendered and never
    set again: when the instance is rendered once more, for any page, the
    header links and the position in the footer are those of the first
    page, while the table of contents, the key of the animated block and
    the document follow the new page. *)
Theorem index_kept_after_mount (p1 p2 : Props) (w : World) :
  exists mk1 mk2 cell k,
    LearnPage_return p1 None w = (Ok (mk1, cell), w) /\
    LearnPage_return p2 cell w = (Ok (mk2, cell), w) /\
    header_prev mk2 = header_prev mk1 /\
    header_next mk2 = header_next mk1 /\
    nth_error (footer_counter mk1) 3 = Some (Number k) /\
    nth_error (footer_counter mk2) 3 = Some (Number k) /\
    toc mk2 = Array_map (toc_item (page p2)) (manifest w) /\
    motion_key mk2 = id (page p2) /\
    markdown mk2 = content p2.
Proof.
  destruct (LearnPage_return_run p1 None w) as (r1 & c1 & Hhead1 & Hrun1).
  destruct (LearnPage_any p1 None w) as (r1' & Hany1 & Hidx1 & Hnext1 & Hprev1 & _).
  rewrite Hhead1 in Hany1. injection Hany1 as <- ->.
  destruct (LearnPage_return_run p2 (Some (index r1)) w) as (r2 & c2 & Hhead2 & Hrun2).
  destruct (LearnPage_any p2 (Some (index r1)) w)
    as (r2' & Hany2 & Hidx2 & Hnext2 & Hprev2 & _).
  rewrite Hhead2 in Hany2. injection Hany2 as <- ->.
  simpl in Hidx1. rewrite <- Hidx1 in *.
  do 2 eexists. exists (Some (index r1)), (index r1 + 1).
  split; [exact Hrun1|]. split; [exact Hrun2|]. simpl.
  rewrite Hidx2, Hprev1, Hprev2, Hnext1, Hnext2.
  repeat split; reflexivity.
Qed.
